(** * local_embedding_server: a shallow embedding and its verification

    The program is one Python module,
    [src/embedding_server/local_embedding_server.py]: a FastAPI application
    with four routes in front of a lazily loaded sentence-transformers
    model.  The development below follows the module top to bottom:

    - [Python]: the pieces of the language and of its standard library the
      module relies on ([str.strip], truthiness of a [str], [os.getenv]);
    - [SentenceTransformers]: the interface of the external model library,
      whose calls are effects on a world the module does not control;
    - [Server]: the module itself (globals, [get_model], the pydantic
      models, the four handlers) and the FastAPI dispatch around them;
    - [Doubles]: test doubles of the library, among them a load counter;
    - the theorems. *)

From Stdlib Require Import NArith ZArith Ascii String PrimFloat Decimal DecimalN.
From stdpp Require Import base option list gmap.

(** ** The Python the module uses *)

Module Python.
#[local] Open Scope N_scope.

(** A Python [str] is a sequence of Unicode code points. *)
Abbreviation str := (list N).

(** String literals of the source, which are all ASCII. *)
Definition lit (s : string) : str :=
  N_of_ascii <$> list_ascii_of_string s.

(** [str.isspace] on one code point: the characters [str.strip()] removes
    when called without argument (CPython's [_PyUnicode_IsWhitespace]:
    bidirectional class WS, B or S, or category Zs). *)
Definition isspace (c : N) : bool :=
  (9 <=? c) && (c <=? 13)            (* \t \n \v \f \r *)
  || (28 <=? c) && (c <=? 32)        (* FS GS RS US and the space *)
  || (c =? 133) || (c =? 160)        (* NEL, no-break space *)
  || (c =? 5760)                     (* U+1680 *)
  || (8192 <=? c) && (c <=? 8202)    (* U+2000 .. U+200A *)
  || (c =? 8232) || (c =? 8233)      (* U+2028, U+2029 *)
  || (c =? 8239) || (c =? 8287)      (* U+202F, U+205F *)
  || (c =? 12288).                   (* U+3000 *)

(** [s.lstrip()]: drop the leading run of whitespace. *)
Fixpoint lstrip (s : str) : str :=
  match s with
  | [] => []
  | c :: s' => if isspace c then lstrip s' else s
  end.

(** [s.rstrip()]: drop the trailing run of whitespace. *)
Definition rstrip (s : str) : str := reverse (lstrip (reverse s)).

(** [s.strip()]. *)
Definition strip (s : str) : str := rstrip (lstrip s).

(** Truth value of a [str]: only the empty string is falsy. *)
Definition truthy (s : str) : bool :=
  match s with [] => false | _ :: _ => true end.

(** [os.getenv(key, default)] over [os.environ]. *)
Definition os_getenv (environ : gmap str str) (key dflt : str) : str :=
  default dflt (environ !! key).

End Python.
Export Python.

(** ** The external model library *)

(** What [model.encode(text, convert_to_numpy=True)] hands back: a numpy
    array, which has a [tolist] method, or (from a stand-in for the model)
    a plain sequence, which has not. *)
Inductive raw_vector : Type :=
| ndarray (a : list float)
| sequence (l : list float).

Definition hasattr_tolist (v : raw_vector) : bool :=
  match v with ndarray _ => true | sequence _ => false end.

(** [raw_vector.tolist()]; only called where [hasattr_tolist] holds. *)
Definition tolist (v : raw_vector) : list float :=
  match v with ndarray a => a | sequence l => l end.

(** [list(raw_vector)]: the elements in iteration order. *)
Definition list_of (v : raw_vector) : list float :=
  match v with ndarray a => a | sequence l => l end.

(** The library is used through two calls: the constructor
    [SentenceTransformer(name)] and the method [encode].  Both run against
    a world (disk, network, the library's caches) that they may change, and
    both may raise. *)
Class SentenceTransformers := {
  World : Type;
  Model : Type;
  Exn : Type;
  SentenceTransformer : str → World → (Exn + Model) * World;
  encode : Model → str → World → (Exn + raw_vector) * World;
}.

(** ** The module *)

Module Server.
Section WithLibrary.
Context `{ST : SentenceTransformers}.

(** *** Process state

    The two module-level globals, [MODEL_NAME] (line 11) and [_model]
    (line 15), next to what lives outside the module: the process
    environment, the world of the library, and the history of the calls
    made into the library (kept for the proofs; the program never reads
    it). *)

Inductive call : Type :=
| Load (name : str) (result : Exn + Model)
| Encode (model : Model) (text : str) (result : Exn + raw_vector).

Record process : Type := {
  environ : gmap str str;
  MODEL_NAME : str;
  _model : option Model;
  world : World;
  calls : list call;
}.

Definition set_model (m : option Model) (p : process) : process :=
  {| environ := environ p; MODEL_NAME := MODEL_NAME p; _model := m;
     world := world p; calls := calls p |}.


Definition called (c : call) (w : World) (p : process) : process :=
  {| environ := environ p; MODEL_NAME := MODEL_NAME p; _model := _model p;
     world := w; calls := calls p ++ [c] |}.

(** *** Exceptions and the monad of handlers *)

Inductive exception : Type :=
| HTTPException (status_code : nat) (detail : str)
| ModelLoadError (e : Exn)       (* what the library raised, loading or encoding *)
| AttributeError.                (* a method looked up on [None] *)

Inductive outcome (A : Type) : Type :=
| Returns (a : A)
| Raises (e : exception).
Arguments Returns {A} a.
Arguments Raises {A} e.

Definition M (A : Type) : Type := process → outcome A * process.

#[local] Instance M_ret : MRet M := λ A a p, (Returns a, p).
#[local] Instance M_bind : MBind M := λ A B f m p,
  match m p with
  | (Returns a, p') => f a p'
  | (Raises e, p') => (Raises e, p')
  end.

Definition raise {A} (e : exception) : M A := λ p, (Raises e, p).

(** Reading and writing the globals. *)
Definition global_MODEL_NAME : M str := λ p, (Returns (MODEL_NAME p), p).
Definition global_model : M (option Model) := λ p, (Returns (_model p), p).
Definition assign_model (m : Model) : M unit :=
  λ p, (Returns (), set_model (Some m) p).

(** Calls into the library: run it on the current world, record the call,
    turn what it raises into a Python exception. *)
Definition new_SentenceTransformer (name : str) : M Model := λ p,
  let '(r, w) := SentenceTransformer name (world p) in
  (match r with inl e => Raises (ModelLoadError e) | inr m => Returns m end,
   called (Load name r) w p).

Definition model_encode (model : option Model) (text : str) : M raw_vector :=
  λ p,
  match model with
  | None => (Raises AttributeError, p)
  | Some m =>
      let '(r, w) := encode m text (world p) in
      (match r with inl e => Raises (ModelLoadError e) | inr v => Returns v end,
       called (Encode m text r) w p)
  end.

(** *** [get_model] (lines 17-21) *)

Definition get_model : M (option Model) :=
  m ← global_model;
  (if m is None
   then name ← global_MODEL_NAME;
        m' ← new_SentenceTransformer name;
        assign_model m'
   else mret ());;
  global_model.

(** *** The pydantic models (lines 24-33) *)

Record EmbeddingRequest : Type := { input : str }.
Record EmbeddingData : Type := { embedding : list float }.
Record EmbeddingResponse : Type := { data : list EmbeddingData }.

(** *** The handlers (lines 36-60) *)

Definition generate_embeddings (request : EmbeddingRequest) : M EmbeddingResponse :=
  let text := strip (input request) in
  if negb (truthy text)
  then raise (HTTPException 400 (lit "Input must not be empty"))
  else
    model ← get_model;
    raw_vector ← model_encode model text;
    let vector :=
      if hasattr_tolist raw_vector then tolist raw_vector
      else list_of raw_vector in
    mret {| data := [ {| embedding := vector |} ] |}.

(** A [dict] literal with string values, in the order it is written. *)
Definition dict : Type := list (str * str).

Definition healthcheck : M dict :=
  name ← global_MODEL_NAME;
  mret [ (lit "status", lit "ok"); (lit "model", name) ].

Definition landing : M dict :=
  mret [ (lit "status", lit "ok");
         (lit "message", lit "Use POST /v1/embeddings for embeddings") ].

(** Returns [None]. *)
Definition favicon : M unit := mret ().

(** *** The application

    What FastAPI makes of the decorators on lines 36, 48, 53 and 58: a
    value returned by an endpoint is sent with the route's status code
    (200 unless the decorator says otherwise), an [HTTPException] with its
    own status code and its detail, any other exception as a bare 500.
    A response carries the value the endpoint returned; its encoding as
    JSON text is left to the framework. *)

Inductive request : Type :=
| POST_v1_embeddings (body : EmbeddingRequest)
| GET_healthz
| GET_root
| GET_favicon_ico.

Inductive content : Type :=
| json_model (r : EmbeddingResponse)
| json_dict (d : dict)
| json_detail (detail : str)
| empty_body
| internal_server_error.

Record response : Type := { status : nat; body : content }.

Definition route {A} (status_code : nat) (render : A → content)
    (endpoint : M A) : process → response * process := λ p,
  match endpoint p with
  | (Returns a, p') => ({| status := status_code; body := render a |}, p')
  | (Raises (HTTPException c d), p') =>
      ({| status := c; body := json_detail d |}, p')
  | (Raises _, p') => ({| status := 500; body := internal_server_error |}, p')
  end.

Definition app (r : request) : process → response * process :=
  match r with
  | POST_v1_embeddings b => route 200 json_model (generate_embeddings b)
  | GET_healthz => route 200 json_dict healthcheck
  | GET_root => route 200 json_dict landing
  | GET_favicon_ico => route 204 (λ _, empty_body) favicon
  end.

(** Importing the module (lines 11 and 15): the model name is read from
    the environment, the model is not loaded. *)
Definition module_init (env : gmap str str) (w : World) : process :=
  {| environ := env;
     MODEL_NAME :=
       os_getenv env (lit "EMBEDDING_MODEL")
         (lit "sentence-transformers/all-MiniLM-L6-v2");
     _model := None;
     world := w;
     calls := [] |}.

(** A single-threaded process serving requests one after the other. *)
Fixpoint serve (rs : list request) (p : process) : list response * process :=
  match rs with
  | [] => ([], p)
  | r :: rs' =>
      let '(a, p1) := app r p in
      let '(answers, p2) := serve rs' p1 in
      (a :: answers, p2)
  end.

(** *** Reading the history of library calls *)

Definition is_load (c : call) : bool :=
  match c with Load _ _ => true | Encode _ _ _ => false end.

Definition is_created (c : call) : bool :=
  match c with Load _ (inr _) => true | _ => false end.

(** Constructor calls made, and constructor calls that produced a model. *)
Definition load_attempts (cs : list call) : nat :=
  length (List.filter is_load cs).

Definition models_created (cs : list call) : nat :=
  length (List.filter is_created cs).



(** The names the constructor was called with, and the texts [encode] was
    called with, oldest first. *)
Definition loaded_names (cs : list call) : list str :=
  omap (λ c, match c with Load n _ => Some n | _ => None end) cs.

Definition encoded_texts (cs : list call) : list str :=
  omap (λ c, match c with Encode _ t _ => Some t | _ => None end) cs.

(** *** Vocabulary of the statements *)

(** The answer to an embeddings request whose [encode] call came back with
    [res]. *)
Definition answer (res : Exn + raw_vector) : response :=
  match res with
  | inl _ => {| status := 500; body := internal_server_error |}
  | inr raw =>
      {| status := 200;
         body := json_model {| data := [ {| embedding := list_of raw |} ] |} |}
  end.

(** [get_model] can hand out [m] in process [p], leaving the world as
    [w]: [m] is stored already, or nothing is stored and the constructor,
    called now with [MODEL_NAME], returns [m]. *)
Definition model_available (p : process) (m : Model) (w : World) : Prop :=
  match _model p with
  | Some m' => m' = m ∧ w = world p
  | None => SentenceTransformer (MODEL_NAME p) (world p) = (inr m, w)
  end.

(** Everything one request can do to the process: nothing; one [encode]
    on the model that is there; a failed load; or a load that stores its
    model, followed by one [encode] on it. *)
Inductive effect (p : process) : process → Prop :=
| effect_none :
    effect p p
| effect_encode m text res w :
    _model p = Some m →
    effect p (called (Encode m text res) w p)
| effect_load_failed e w :
    _model p = None →
    effect p (called (Load (MODEL_NAME p) (inl e)) w p)
| effect_load_encode m w text res w' :
    _model p = None →
    effect p (called (Encode m text res) w'
                (set_model (Some m)
                   (called (Load (MODEL_NAME p) (inr m)) w p))).



End WithLibrary.

Arguments Returns {ST A} a.
Arguments Raises {ST A} e.

End Server.

Export Server.

(** ** Test doubles of the library *)

Module Doubles.

(** A model that counts how often it is constructed: the world is the
    number of constructor calls so far, a model remembers the name it was
    built from, nothing ever raises, and [encode] returns a numpy array. *)
Definition load_counter : SentenceTransformers :=
  {| World := nat;
     Model := str;
     Exn := Empty_set;
     SentenceTransformer := λ name n, (inr name, S n);
     encode := λ _ text n,
       (inr (ndarray [0.125%float; (-0.5)%float; 0.25%float]), n) |}.

(** A model that cannot be loaded: the constructor raises every time. *)
Definition unavailable : SentenceTransformers :=
  {| World := nat;
     Model := unit;
     Exn := str;
     SentenceTransformer := λ name n, (inl name, S n);
     encode := λ _ _ n, (inr (sequence []), n) |}.

(** A model whose first load fails (the world counts the attempts) and
    whose [encode] returns a plain list. *)
Definition flaky : SentenceTransformers :=
  {| World := nat;
     Model := unit;
     Exn := unit;
     SentenceTransformer := λ _ n,
       (match n with O => inl () | S _ => inr () end, S n);
     encode := λ _ text n, (inr (sequence [1%float; 2%float]), n) |}.



(** A process just started on each of them, with an empty environment. *)
Definition counter_started : @process load_counter :=
  @module_init load_counter ∅ O.
Definition unavailable_started : @process unavailable :=
  @module_init unavailable ∅ O.
Definition flaky_started : @process flaky :=
  @module_init flaky ∅ O.

(** An environment that names another model. *)
Definition configured : gmap str str :=
  {[ lit "EMBEDDING_MODEL" := lit "intfloat/e5-small-v2" ]}.

Definition hello_world : EmbeddingRequest := {| input := lit "hello world" |}.
(** The same text after a space and a tab, before a line feed and a
    no-break space. *)
Definition padded_hello : EmbeddingRequest :=
  {| input := [32; 9]%N ++ lit "hello world" ++ [10; 160]%N |}.
Definition blank : EmbeddingRequest := {| input := lit "   " |}.
Definition no_input : EmbeddingRequest := {| input := lit "" |}.

End Doubles.

(** ** The built-in [int] on a [str] *)

Module Builtins.
#[local] Open Scope N_scope.

(** What [int] takes from the interpreter it runs on: the decimal value
    the Unicode database gives to a code point outside ASCII, if it has
    one, and the limit on the number of digits of a numeral
    ([sys.get_int_max_str_digits()], 0 for none). *)
Class Interpreter := {
  Py_UNICODE_TODECIMAL : N → option N;
  int_max_str_digits : nat;
}.

Section WithInterpreter.
Context `{PY : Interpreter}.

(** C's [Py_ISSPACE]: the ASCII white space. *)
Definition Py_ISSPACE (c : N) : bool :=
  (9 <=? c) && (c <=? 13) || (c =? 32).

Definition is_digit (c : N) : bool := (48 <=? c) && (c <=? 57).

(** [int] first maps the string to ASCII: an ASCII character stays, any
    other white space becomes a space, any other decimal digit becomes the
    ASCII digit of its value, and anything else a question mark. *)
Definition to_ascii (c : N) : N :=
  if c <? 128 then c
  else if isspace c then 32
  else match Py_UNICODE_TODECIMAL c with
       | Some d => 48 + d
       | None => 63
       end.

Fixpoint skip_spaces (b : list N) : list N :=
  match b with
  | [] => []
  | c :: b' => if Py_ISSPACE c then skip_spaces b' else b
  end.

(** The run of digits of a numeral: a single underscore may stand between
    two digits, nowhere else.  [prev] is the character just read, [acc]
    the value and [digits] the number of the digits read so far; the
    result carries what follows the run. *)
Fixpoint scan_digits (prev acc : N) (digits : nat) (b : list N)
    : option (N * nat * list N) :=
  match b with
  | [] => if prev =? 95 then None else Some (acc, digits, [])
  | c :: b' =>
      if is_digit c then scan_digits c (10 * acc + (c - 48)) (S digits) b'
      else if c =? 95 then
        if prev =? 95 then None else scan_digits c acc digits b'
      else if prev =? 95 then None else Some (acc, digits, b)
  end.

Definition too_many_digits (digits : nat) : bool :=
  Nat.ltb 640 digits && Nat.ltb 0 int_max_str_digits
  && Nat.ltb int_max_str_digits digits.

Definition starts_with (c : N) (b : list N) : bool :=
  match b with
  | c' :: _ => c' =? c
  | [] => false
  end.

(** The numeral after the sign: no underscore in front, at least one
    digit, not too many, and only white space after the digits. *)
Definition int_digits (negative : bool) (b : list N) : option Z :=
  if starts_with 95 b then None
  else
    match scan_digits 0 0 0 b with
    | None => None
    | Some (n, digits, rest) =>
        if too_many_digits digits then None
        else if Nat.eqb digits 0 then None
        else match skip_spaces rest with
             | [] => Some (if negative then - Z.of_N n else Z.of_N n)%Z
             | _ :: _ => None
             end
    end.

(** [int(s)] in base ten; [None] when it raises [ValueError].  White space
    around, an optional sign, then the digits. *)
Definition int (s : str) : option Z :=
  let b := skip_spaces (to_ascii <$> s) in
  if starts_with 43 b then int_digits false (tail b)
  else if starts_with 45 b then int_digits true (tail b)
  else int_digits false b.

End WithInterpreter.

(** [str(n)] for a natural number: its decimal numeral. *)
Fixpoint uint_chars (u : Decimal.uint) : str :=
  match u with
  | Nil => []
  | D0 u' => 48 :: uint_chars u'
  | D1 u' => 49 :: uint_chars u'
  | D2 u' => 50 :: uint_chars u'
  | D3 u' => 51 :: uint_chars u'
  | D4 u' => 52 :: uint_chars u'
  | D5 u' => 53 :: uint_chars u'
  | D6 u' => 54 :: uint_chars u'
  | D7 u' => 55 :: uint_chars u'
  | D8 u' => 56 :: uint_chars u'
  | D9 u' => 57 :: uint_chars u'
  end.

Definition str_of_N (n : N) : str := uint_chars (N.to_uint n).

(** [str(z)] for an integer: a minus sign before the numeral of a negative
    one. *)
Definition str_of_Z (z : Z) : str :=
  match z with
  | Zneg q => 45 :: str_of_N (Npos q)
  | _ => str_of_N (Z.to_N z)
  end.

(** The number a run of decimal digits stands for, read after [acc]. *)
Fixpoint uint_value (acc : N) (u : Decimal.uint) : N :=
  match u with
  | Nil => acc
  | D0 u' => uint_value (10 * acc + 0) u'
  | D1 u' => uint_value (10 * acc + 1) u'
  | D2 u' => uint_value (10 * acc + 2) u'
  | D3 u' => uint_value (10 * acc + 3) u'
  | D4 u' => uint_value (10 * acc + 4) u'
  | D5 u' => uint_value (10 * acc + 5) u'
  | D6 u' => uint_value (10 * acc + 6) u'
  | D7 u' => uint_value (10 * acc + 7) u'
  | D8 u' => uint_value (10 * acc + 8) u'
  | D9 u' => uint_value (10 * acc + 9) u'
  end.

(** The characters a numeral can be made of, once mapped to ASCII. *)
Definition is_numeral_char (c : N) : bool :=
  is_digit c || (c =? 43) || (c =? 45) || (c =? 95) || Py_ISSPACE c.

(** A string of such characters and of white space only, with a digit
    among them. *)
Definition looks_numeral `{PY : Interpreter} (s : str) : bool :=
  forallb (λ c, isspace c || is_numeral_char (to_ascii c)) s
  && existsb (λ c, is_digit (to_ascii c)) s.

End Builtins.
Export Builtins.

(** ** The script block (lines 62-66) *)

Module Script.
Section WithInterpreter.
Context `{PY : Interpreter}.

(** What running the file comes to, after the module body: nothing when
    it was imported, a [ValueError] out of [int], or the call of
    [uvicorn.run] with its arguments. *)
Inductive startup : Type :=
| imported
| ValueError
| uvicorn_run (application host : str) (port : Z) (reload : bool).

Definition main (__name__ : str) (environ : gmap str str) : startup :=
  if bool_decide (__name__ = lit "__main__") then
    match int (os_getenv environ (lit "EMBEDDING_PORT") (lit "11435")) with
    | None => ValueError
    | Some port =>
        uvicorn_run (lit "local_embedding_server:app") (lit "127.0.0.1")
          port false
    end
  else imported.

End WithInterpreter.
End Script.
Export Script.

(** ** More vocabulary for runs of requests *)

Module Runs.
Section WithLibrary.
Context `{ST : SentenceTransformers}.

(** Requests that never reach [get_model]: the three [GET] routes and an
    embeddings request whose input is blank. *)
Definition is_quiet (r : request) : bool :=
  match r with
  | POST_v1_embeddings b => forallb isspace (input b)
  | _ => true
  end.

Definition is_loud (r : request) : bool := negb (is_quiet r).

(** The answers of a run that were given to its loud requests. *)
Definition loud_answers (rs : list request) (answers : list response)
    : list response :=
  snd <$> List.filter (λ ra, is_loud ra.1) (zip rs answers).

(** The library calls made between [p] and a later [p']. *)
Definition new_calls (p p' : process) : list call :=
  drop (length (calls p)) (calls p').




Definition is_embedding (a : response) : bool :=
  match body a with json_model _ => true | _ => false end.


(** Every model the constructor returned, and every model [encode] was
    called on, is the stored one. *)
Definition one_model (p : process) : Prop :=
  Forall (λ c, match c with
               | Load _ (inr m) | Encode m _ _ => _model p = Some m
               | Load _ (inl _) => True
               end) (calls p).

(** One request served: the request, the answer, the process after it.
    A quiet request changes nothing; a loud one goes through [encode] on
    the stored model, or through the constructor first. *)
Inductive served (p : process) : request → response → process → Prop :=
| served_quiet r :
    is_quiet r = true →
    served p r (app r p).1 p
| served_encode request m res w :
    forallb isspace (input request) = false →
    _model p = Some m →
    encode m (strip (input request)) (world p) = (res, w) →
    served p (POST_v1_embeddings request) (answer res)
      (called (Encode m (strip (input request)) res) w p)
| served_load_failed request e w :
    forallb isspace (input request) = false →
    _model p = None →
    SentenceTransformer (MODEL_NAME p) (world p) = (inl e, w) →
    served p (POST_v1_embeddings request)
      {| status := 500; body := internal_server_error |}
      (called (Load (MODEL_NAME p) (inl e)) w p)
| served_load_encode request m w res w' :
    forallb isspace (input request) = false →
    _model p = None →
    SentenceTransformer (MODEL_NAME p) (world p) = (inr m, w) →
    encode m (strip (input request)) w = (res, w') →
    served p (POST_v1_embeddings request) (answer res)
      (called (Encode m (strip (input request)) res) w'
         (set_model (Some m) (called (Load (MODEL_NAME p) (inr m)) w p))).

(** A text with something in it and no white space at either end. *)
Definition trimmed (t : str) : Prop :=
  t ≠ [] ∧
  (∀ c, head t = Some c → isspace c = false) ∧
  (∀ c, last t = Some c → isspace c = false).

End WithLibrary.
End Runs.
Export Runs.

(** ** Stand-ins for the interpreter and the environment *)

Module Fixtures.

(** An interpreter that knows the Arabic-Indic and the fullwidth digits,
    with the default limit of 4300 digits. *)
Definition small_ucd : Interpreter :=
  {| Py_UNICODE_TODECIMAL := λ c,
       if ((1632 <=? c) && (c <=? 1641))%N then Some (c - 1632)%N
       else if ((65296 <=? c) && (c <=? 65305))%N then Some (c - 65296)%N
       else None;
     int_max_str_digits := 4300 |}.

Definition port_8080 : gmap str str :=
  {[ lit "EMBEDDING_PORT" := [32]%N ++ str_of_N 8080 ++ [10]%N ]}.

Definition port_http : gmap str str :=
  {[ lit "EMBEDDING_PORT" := lit "http" ]}.

Definition port_blank : gmap str str :=
  {[ lit "EMBEDDING_PORT" := lit "" ]}.

End Fixtures.

(** ** Properties of [strip] *)

Section Strip.

Lemma lstrip_head c s t : lstrip s = c :: t → isspace c = false.
Proof.
  induction s as [|d s IH]; simpl; [done|].
  destruct (isspace d) eqn:Hd; [done|].
  intros [= -> _]. done.
Qed.

Lemma lstrip_fixed c s : isspace c = false → lstrip (c :: s) = c :: s.
Proof. intros H. simpl. by rewrite H. Qed.

Lemma lstrip_idem s : lstrip (lstrip s) = lstrip s.
Proof.
  destruct (lstrip s) as [|c t] eqn:E; [done|].
  apply lstrip_fixed. eapply lstrip_head, E.
Qed.

Lemma lstrip_snoc s c : isspace c = false → lstrip (s ++ [c]) = lstrip s ++ [c].
Proof.
  intros H. induction s as [|d s IH]; simpl.
  - by rewrite H.
  - destruct (isspace d); [exact IH | done].
Qed.

Lemma lstrip_nil_iff s : lstrip s = [] ↔ forallb isspace s = true.
Proof.
  induction s as [|c s IH]; simpl; [done|].
  destruct (isspace c); simpl; [exact IH | done].
Qed.

Lemma forallb_reverse (f : N → bool) s : forallb f (reverse s) = forallb f s.
Proof.
  induction s as [|c s IH]; [done|].
  rewrite reverse_cons, forallb_app, IH. simpl.
  destruct (f c), (forallb f s); done.
Qed.

Lemma rstrip_nil_iff s : rstrip s = [] ↔ forallb isspace s = true.
Proof.
  unfold rstrip. rewrite <- (forallb_reverse isspace s), <- lstrip_nil_iff.
  split; intros H.
  - apply (f_equal reverse) in H. by rewrite reverse_involutive in H.
  - by rewrite H.
Qed.

Lemma rstrip_cons c s :
  isspace c = false → rstrip (c :: s) = c :: rstrip s.
Proof.
  intros H. unfold rstrip.
  by rewrite reverse_cons, lstrip_snoc, reverse_app.
Qed.

Lemma rstrip_idem s : rstrip (rstrip s) = rstrip s.
Proof. unfold rstrip. by rewrite reverse_involutive, lstrip_idem. Qed.

(** Trimming leaves nothing exactly when every character is whitespace. *)
Lemma strip_nil_iff s : strip s = [] ↔ forallb isspace s = true.
Proof.
  unfold strip. rewrite rstrip_nil_iff, <- (lstrip_nil_iff s).
  destruct (lstrip s) as [|c t] eqn:E; [done|].
  simpl. rewrite (lstrip_head _ _ _ E). done.
Qed.

(** Trimming twice is trimming once. *)
Lemma strip_idem s : strip (strip s) = strip s.
Proof.
  unfold strip. destruct (lstrip s) as [|c t] eqn:E; [done|].
  pose proof (lstrip_head _ _ _ E) as Hc.
  rewrite (rstrip_cons _ _ Hc), (lstrip_fixed _ _ Hc), <- (rstrip_cons _ _ Hc).
  apply rstrip_idem.
Qed.

Lemma lstrip_app s t :
  lstrip (s ++ t) = if lstrip s is [] then lstrip t else lstrip s ++ t.
Proof.
  induction s as [|c s IH]; simpl; [by destruct (lstrip t)|].
  by destruct (isspace c).
Qed.

(** Whitespace put before or after a text is trimmed away with the
    whitespace that was there. *)
Lemma strip_padded pre s post :
  forallb isspace pre = true → forallb isspace post = true →
  strip (pre ++ s ++ post) = strip s.
Proof.
  intros Hpre Hpost. unfold strip.
  rewrite lstrip_app, (proj2 (lstrip_nil_iff pre) Hpre), lstrip_app.
  destruct (lstrip s) as [|c t] eqn:E.
  - by rewrite (proj2 (lstrip_nil_iff post) Hpost).
  - rewrite <- E. unfold rstrip. rewrite reverse_app, lstrip_app.
    rewrite <- (forallb_reverse isspace post) in Hpost.
    by rewrite (proj2 (lstrip_nil_iff _) Hpost).
Qed.

Lemma truthy_strip s : truthy (strip s) = negb (forallb isspace s).
Proof.
  destruct (forallb isspace s) eqn:E.
  - apply strip_nil_iff in E. by rewrite E.
  - destruct (strip s) eqn:E'; [|done].
    apply strip_nil_iff in E'. congruence.
Qed.

End Strip.

(** ** How the operations act on the process *)

(** Unfold the monad down to functions on the process. *)
Ltac run_M :=
  unfold mbind, mret, M_bind, M_ret, raise, global_model, global_MODEL_NAME,
    new_SentenceTransformer, assign_model; simpl.

Section Operations.
Context `{ST : SentenceTransformers}.

Implicit Types (p : process) (r : request) (request : EmbeddingRequest).

(** [get_model] with the model already there: no effect at all. *)
Lemma get_model_loaded p m :
  _model p = Some m → get_model p = (Returns (Some m), p).
Proof.
  intros H. unfold get_model. run_M. rewrite H. simpl. by rewrite H.
Qed.

(** [get_model] with no model yet: one constructor call, whose result is
    stored if there is one and raised otherwise. *)
Lemma get_model_unloaded p :
  _model p = None →
  get_model p =
    let name := MODEL_NAME p in
    let '(res, w) := SentenceTransformer name (world p) in
    match res with
    | inl e => (Raises (ModelLoadError e), called (Load name res) w p)
    | inr m => (Returns (Some m), set_model (Some m) (called (Load name res) w p))
    end.
Proof.
  intros H. unfold get_model. run_M. rewrite H.
  destruct (SentenceTransformer (MODEL_NAME p) (world p)) as [[e|m] w]; reflexivity.
Qed.

(** The handler on an input that trims to nothing. *)
Lemma generate_embeddings_blank request p :
  forallb isspace (input request) = true →
  generate_embeddings request p =
    (Raises (HTTPException 400 (lit "Input must not be empty")), p).
Proof.
  intros H. unfold generate_embeddings.
  rewrite truthy_strip, H. reflexivity.
Qed.

(** The handler on any other input: [get_model], then [encode] on the
    trimmed text, then the conversion. *)
Lemma generate_embeddings_text request p :
  forallb isspace (input request) = false →
  generate_embeddings request p =
    match get_model p with
    | (Returns model, p1) =>
        match model_encode model (strip (input request)) p1 with
        | (Returns raw, p2) =>
            (Returns {| data := [ {| embedding := list_of raw |} ] |}, p2)
        | (Raises e, p2) => (Raises e, p2)
        end
    | (Raises e, p1) => (Raises e, p1)
    end.
Proof.
  intros H. unfold generate_embeddings.
  rewrite truthy_strip, H. simpl. run_M.
  destruct (get_model p) as [[model|e] p1]; [|done].
  destruct (model_encode _ _ p1) as [[raw|e] p2]; [|done].
  by destruct raw.
Qed.


Lemma app_root p :
  app GET_root p =
    ({| status := 200;
        body := json_dict
          [ (lit "status", lit "ok");
            (lit "message", lit "Use POST /v1/embeddings for embeddings") ] |},
     p).
Proof. reflexivity. Qed.

Lemma app_favicon p :
  app GET_favicon_ico p = ({| status := 204; body := empty_body |}, p).
Proof. reflexivity. Qed.

Lemma app_blank request p :
  forallb isspace (input request) = true →
  app (POST_v1_embeddings request) p =
    ({| status := 400;
        body := json_detail (lit "Input must not be empty") |}, p).
Proof.
  intros H. unfold app, route. by rewrite generate_embeddings_blank.
Qed.

(** The embeddings route on an input that does not trim to nothing, case
    by case. *)
Lemma app_text request p :
  forallb isspace (input request) = false →
  app (POST_v1_embeddings request) p =
    let text := strip (input request) in
    match _model p with
    | Some m =>
        let '(res, w) := encode m text (world p) in
        (answer res, called (Encode m text res) w p)
    | None =>
        let '(loaded, w) := SentenceTransformer (MODEL_NAME p) (world p) in
        let p1 := called (Load (MODEL_NAME p) loaded) w p in
        match loaded with
        | inl _ => ({| status := 500; body := internal_server_error |}, p1)
        | inr m =>
            let '(res, w') := encode m text w in
            (answer res, called (Encode m text res) w' (set_model (Some m) p1))
        end
    end.
Proof.
  intros Hb. unfold app, route. rewrite generate_embeddings_text by done.
  destruct (_model p) as [m|] eqn:Hm.
  - rewrite (get_model_loaded _ _ Hm). unfold model_encode.
    by destruct (encode m _ (world p)) as [[e|v] w].
  - rewrite (get_model_unloaded _ Hm). simpl.
    destruct (SentenceTransformer _ _) as [[e|m] w]; simpl; [done|].
    by destruct (encode m _ w) as [[e|v] w'].
Qed.

Lemma app_text_status request p :
  forallb isspace (input request) = false →
  status (app (POST_v1_embeddings request) p).1 = 200 ∨
  status (app (POST_v1_embeddings request) p).1 = 500.
Proof.
  intros Hb. rewrite (app_text _ _ Hb). simpl.
  destruct (_model p) as [m|].
  - destruct (encode m _ _) as [[e|v] w]; simpl; auto.
  - destruct (SentenceTransformer _ _) as [[e|m] w]; simpl; auto.
    destruct (encode m _ _) as [[e'|v] w']; simpl; auto.
Qed.

(** The embeddings route sees its input only through [strip]. *)
Lemma app_strip_eq request request' p :
  strip (input request) = strip (input request') →
  app (POST_v1_embeddings request) p = app (POST_v1_embeddings request') p.
Proof.
  intros E. destruct (forallb isspace (input request)) eqn:Hb.
  - assert (forallb isspace (input request') = true) as Hb'.
    { apply strip_nil_iff. rewrite <- E. by apply strip_nil_iff. }
    by rewrite !app_blank.
  - assert (forallb isspace (input request') = false) as Hb'.
    { destruct (forallb isspace (input request')) eqn:Hb'; [|done].
      apply strip_nil_iff in Hb'. rewrite <- E in Hb'.
      apply strip_nil_iff in Hb'. congruence. }
    by rewrite !app_text, E.
Qed.




(** Effects of a run of requests, one after the other. *)
Lemma serve_cons r rs p :
  serve (r :: rs) p =
    ((app r p).1 :: (serve rs (app r p).2).1, (serve rs (app r p).2).2).
Proof.
  simpl. destruct (app r p) as [a p1]. simpl.
  by destruct (serve rs p1) as [answers p2].
Qed.



Lemma effect_environ p p' : effect p p' → environ p' = environ p.
Proof. by destruct 1. Qed.





Lemma encoded_texts_snoc cs c :
  encoded_texts (cs ++ [c]) =
    encoded_texts cs ++ match c with Encode _ t _ => [t] | _ => [] end.
Proof. unfold encoded_texts. rewrite omap_app. by destruct c. Qed.





End Operations.

(** ** The claims *)

Section Claims.
Context `{ST : SentenceTransformers}.

Implicit Types (p : process) (r : request) (request : EmbeddingRequest).



(** C4.  When nothing is stored and the constructor raises, [get_model]
    raises what the constructor raised: nothing catches it, in
    [get_model], in the handler, or before the route turns it into a 500.
    Nothing is stored by the failed call, [_model] is [None] and
    [MODEL_NAME] is what it was, so the next [get_model] calls
    [SentenceTransformer(MODEL_NAME)] again and does with its result what
    the first would have done. *)
Theorem failed_load_not_cached request p e w :
  _model p = None →
  SentenceTransformer (MODEL_NAME p) (world p) = (inl e, w) →
  strip (input request) ≠ [] →
  let p1 := called (Load (MODEL_NAME p) (inl e)) w p in
  get_model p = (Raises (ModelLoadError e), p1) ∧
  generate_embeddings request p = (Raises (ModelLoadError e), p1) ∧
  app (POST_v1_embeddings request) p =
    ({| status := 500; body := internal_server_error |}, p1) ∧
  _model p1 = None ∧ MODEL_NAME p1 = MODEL_NAME p ∧
  get_model p1 =
    (let '(res, w2) := SentenceTransformer (MODEL_NAME p) w in
     let p2 := called (Load (MODEL_NAME p) res) w2 p1 in
     match res with
     | inl e2 => (Raises (ModelLoadError e2), p2)
     | inr m => (Returns (Some m), set_model (Some m) p2)
     end).
Proof.
  intros Hm Hload Htext p1.
  assert (forallb isspace (input request) = false) as Hb.
  { destruct (forallb isspace (input request)) eqn:Hb; [|done].
    by apply strip_nil_iff in Hb. }
  assert (get_model p = (Raises (ModelLoadError e), p1)) as Hget.
  { rewrite (get_model_unloaded _ Hm). simpl. by rewrite Hload. }
  split; [exact Hget|]. split; [|split; [|split; [exact Hm|split; [done|]]]].
  - by rewrite (generate_embeddings_text _ _ Hb), Hget.
  - rewrite (app_text _ _ Hb). simpl. by rewrite Hm, Hload.
  - rewrite (get_model_unloaded p1 Hm). simpl.
    by destruct (SentenceTransformer _ _) as [[e2|m] w2].
Qed.

(** C5.  [encode] is called with the trimmed text.  For an input [s]
    that is not empty after trimming: whenever the model is stored or
    loads, the request calls [encode] on [s.strip()], once, and its answer
    is made of what that call gives; no request calls [encode] on anything
    else.  So the route answers [s] exactly as it answers [s.strip()],
    with the same effect on the process, and exactly as it answers [s]
    with more whitespace put around it. *)
Theorem embedding_ignores_outer_whitespace s p :
  strip s ≠ [] →
  (∀ m w,
     model_available p m w →
     (app (POST_v1_embeddings {| input := s |}) p).1 =
       answer (encode m (strip s) w).1 ∧
     encoded_texts (calls (app (POST_v1_embeddings {| input := s |}) p).2) =
       encoded_texts (calls p) ++ [strip s]) ∧
  (encoded_texts (calls (app (POST_v1_embeddings {| input := s |}) p).2) =
     encoded_texts (calls p) ∨
   encoded_texts (calls (app (POST_v1_embeddings {| input := s |}) p).2) =
     encoded_texts (calls p) ++ [strip s]) ∧
  app (POST_v1_embeddings {| input := s |}) p =
    app (POST_v1_embeddings {| input := strip s |}) p ∧
  (∀ pre post,
     forallb isspace pre = true → forallb isspace post = true →
     app (POST_v1_embeddings {| input := pre ++ s ++ post |}) p =
       app (POST_v1_embeddings {| input := s |}) p) ∧
  (status (app (POST_v1_embeddings {| input := s |}) p).1 = 200 →
   encoded_texts (calls (app (POST_v1_embeddings {| input := s |}) p).2) =
     encoded_texts (calls p) ++ [strip s]).
Proof.
  intros Htext.
  assert (forallb isspace s = false) as Hb.
  { destruct (forallb isspace s) eqn:Hb; [|done].
    by apply strip_nil_iff in Hb. }
  split; [|split; [|split; [|split]]].
  - intros m w Hm. rewrite (app_text {| input := s |} p Hb).
    unfold model_available in Hm. simpl.
    destruct (_model p) as [m'|].
    + destruct Hm as [-> ->].
      destruct (encode m _ _) as [res w']. simpl.
      by rewrite encoded_texts_snoc.
    + rewrite Hm. destruct (encode m _ _) as [res w']. simpl.
      by rewrite !encoded_texts_snoc, app_nil_r.
  - rewrite (app_text {| input := s |} p Hb). simpl.
    destruct (_model p) as [m|].
    + destruct (encode m _ _) as [res w]. simpl. right.
      by rewrite encoded_texts_snoc.
    + destruct (SentenceTransformer _ _) as [[e|m] w]; simpl.
      * left. by rewrite encoded_texts_snoc, app_nil_r.
      * destruct (encode m _ _) as [res w']. simpl. right.
        by rewrite !encoded_texts_snoc, app_nil_r.
  - apply app_strip_eq. simpl. by rewrite strip_idem.
  - intros pre post Hpre Hpost. apply app_strip_eq. simpl.
    by apply strip_padded.
  - rewrite (app_text {| input := s |} p Hb). simpl.
    destruct (_model p) as [m|].
    + destruct (encode m _ _) as [res w]. simpl. intros _.
      by rewrite encoded_texts_snoc.
    + destruct (SentenceTransformer _ _) as [[e|m] w]; simpl; [done|].
      destruct (encode m _ _) as [res w']. simpl. intros _.
      by rewrite !encoded_texts_snoc, app_nil_r.
Qed.

(** C2.  An input that is empty or made of whitespace only trims to the
    empty string, and the embeddings route answers it with status 400 and
    the detail "Input must not be empty": a client error (4xx), not a
    server error. *)
Theorem empty_input_rejected request p :
  forallb isspace (input request) = true →
  strip (input request) = [] ∧
  (app (POST_v1_embeddings request) p).1 =
    {| status := 400; body := json_detail (lit "Input must not be empty") |} ∧
  400 ≤ status (app (POST_v1_embeddings request) p).1 < 500.
Proof.
  intros Hb. split; [by apply strip_nil_iff|].
  rewrite (app_blank _ _ Hb). simpl. split; [done|lia].
Qed.


(** C7.  In every process state, [GET /] answers 200 with the fixed
    payload [{"status": "ok", "message": "Use POST /v1/embeddings for
    embeddings"}], and [GET /favicon.ico] answers 204 with an empty
    body. *)
Theorem landing_and_favicon_fixed p :
  (app GET_root p).1 =
    {| status := 200;
       body := json_dict
         [ (lit "status", lit "ok");
           (lit "message", lit "Use POST /v1/embeddings for embeddings") ] |} ∧
  (app GET_favicon_ico p).1 = {| status := 204; body := empty_body |}.
Proof. by rewrite app_root, app_favicon. Qed.


(** C9.  A request answered with status 400 is one whose input trims to
    nothing, and it leaves the whole process as it was: no constructor
    call, the stored model untouched.  If it is the first request of a
    process, [_model] is still [None] afterwards. *)
Theorem rejected_request_changes_nothing request p :
  status (app (POST_v1_embeddings request) p).1 = 400 →
  strip (input request) = [] ∧
  (app (POST_v1_embeddings request) p).2 = p ∧
  load_attempts (calls (app (POST_v1_embeddings request) p).2) =
    load_attempts (calls p) ∧
  (∀ env w, p = module_init env w →
     _model (app (POST_v1_embeddings request) p).2 = None).
Proof.
  intros Hs. destruct (forallb isspace (input request)) eqn:Hb.
  - split; [by apply strip_nil_iff|].
    rewrite (app_blank _ _ Hb). simpl.
    split; [done|]. split; [done|]. by intros env w ->.
  - destruct (app_text_status _ p Hb) as [H|H]; rewrite H in Hs; discriminate.
Qed.

(** C10.  [GET /healthz], [GET /] and [GET /favicon.ico] leave the whole
    process state as it was, make no constructor call, and answer the same
    whatever the stored model reference is. *)
Theorem auxiliary_routes_frame r p :
  r ∈ [GET_healthz; GET_root; GET_favicon_ico] →
  (app r p).2 = p ∧
  load_attempts (calls (app r p).2) = load_attempts (calls p) ∧
  (∀ m, (app r (set_model m p)).1 = (app r p).1).
Proof.
  intros Hr. repeat (apply elem_of_cons in Hr as [->|Hr]); [done..|].
  by apply elem_of_nil in Hr.
Qed.

End Claims.

(** ** The claims on the test doubles *)

Section Witnesses.
Import Doubles.

(** The load counter reads one after three embeddings and a health check. *)
Example load_counter_reads_one :
  world (serve [POST_v1_embeddings hello_world; GET_healthz;
                POST_v1_embeddings padded_hello;
                POST_v1_embeddings hello_world] counter_started).2 = 1.
Proof. reflexivity. Qed.

(** A model that never loads is asked for at every request: failed calls
    of the constructor repeat, and no model is ever created. *)
Example unavailable_asked_every_time :
  let p := (serve [POST_v1_embeddings hello_world;
                   POST_v1_embeddings hello_world] unavailable_started).2 in
  load_attempts (calls p) = 2 ∧ models_created (calls p) = 0 ∧
  _model p = None.
Proof. repeat split. Qed.

(** A first load that fails costs one request; the next one loads. *)
Example flaky_recovers :
  status <$> (serve [GET_healthz; POST_v1_embeddings hello_world;
                     POST_v1_embeddings blank;
                     POST_v1_embeddings hello_world; GET_favicon_ico]
                flaky_started).1 = [200; 500; 400; 200; 204].
Proof. reflexivity. Qed.


Lemma failed_load_not_cached_witness :
  _model unavailable_started = None ∧
  strip (input hello_world) ≠ [] ∧
  (app (POST_v1_embeddings hello_world) unavailable_started).1 =
    {| status := 500; body := internal_server_error |} ∧
  _model (app (POST_v1_embeddings hello_world) unavailable_started).2 = None.
Proof.
  assert (strip (input hello_world) ≠ []) as Htext by discriminate.
  destruct (failed_load_not_cached hello_world unavailable_started
              (MODEL_NAME unavailable_started) 1 eq_refl eq_refl Htext)
    as (_ & _ & Happ & Hnone & _).
  rewrite Happ. simpl. done.
Defined.


Lemma empty_input_rejected_witness :
  forallb isspace (input blank) = true ∧
  (app (POST_v1_embeddings blank) counter_started).1 =
    {| status := 400; body := json_detail (lit "Input must not be empty") |}.
Proof.
  split; [reflexivity|].
  apply (empty_input_rejected blank counter_started).
  reflexivity.
Defined.

Lemma rejected_request_changes_nothing_witness :
  status (app (POST_v1_embeddings no_input) unavailable_started).1
    = 400 ∧
  (app (POST_v1_embeddings no_input) unavailable_started).2
    = unavailable_started.
Proof.
  split; [reflexivity|].
  apply (rejected_request_changes_nothing no_input unavailable_started).
  reflexivity.
Defined.

Lemma auxiliary_routes_frame_witness :
  GET_favicon_ico ∈ [GET_healthz; GET_root; GET_favicon_ico] ∧
  (app GET_favicon_ico flaky_started).2 = flaky_started.
Proof.
  split; [repeat constructor|].
  apply (auxiliary_routes_frame GET_favicon_ico flaky_started).
  repeat constructor.
Defined.




Lemma embedding_ignores_outer_whitespace_witness :
  strip (input padded_hello) ≠ [] ∧
  status (app (POST_v1_embeddings padded_hello) counter_started).1 = 200 ∧
  encoded_texts
    (calls (app (POST_v1_embeddings padded_hello) counter_started).2)
    = [lit "hello world"] ∧
  app (POST_v1_embeddings padded_hello) counter_started =
    app (POST_v1_embeddings hello_world) counter_started.
Proof.
  assert (strip (input padded_hello) ≠ []) as Htext by discriminate.
  destruct (embedding_ignores_outer_whitespace (input padded_hello)
              counter_started Htext)
    as (Hencode & _ & Hstrip & _).
  destruct (Hencode (MODEL_NAME counter_started) 1 eq_refl)
    as [Hanswer Htexts].
  split; [exact Htext|]. split; [|split].
  - change (status (app (POST_v1_embeddings {| input := input padded_hello |})
                      counter_started).1 = 200).
    by rewrite Hanswer.
  - exact Htexts.
  - exact Hstrip.
Defined.

End Witnesses.

(** ** More on [strip] *)

Section StripShape.

Lemma lstrip_split s :
  ∃ pre, s = pre ++ lstrip s ∧ forallb isspace pre = true.
Proof.
  induction s as [|c s (pre & E & Hpre)]; [by exists []|].
  simpl. destruct (isspace c) eqn:Hc.
  - exists (c :: pre). simpl. rewrite Hc, Hpre. by rewrite <- E.
  - by exists [].
Qed.

Lemma rstrip_split s :
  ∃ post, s = rstrip s ++ post ∧ forallb isspace post = true.
Proof.
  destruct (lstrip_split (reverse s)) as (pre & E & Hpre).
  exists (reverse pre). rewrite forallb_reverse. split; [|done].
  unfold rstrip. rewrite <- reverse_app, <- E. by rewrite reverse_involutive.
Qed.

(** [strip] takes a run of white space off each end and nothing else. *)
Lemma strip_split s :
  ∃ pre post,
    s = pre ++ strip s ++ post ∧
    forallb isspace pre = true ∧ forallb isspace post = true.
Proof.
  destruct (lstrip_split s) as (pre & E & Hpre).
  destruct (rstrip_split (lstrip s)) as (post & E' & Hpost).
  exists pre, post. unfold strip. by rewrite <- E', <- E.
Qed.

Lemma trimmed_strip s : strip s ≠ [] → trimmed (strip s).
Proof.
  intros Hne. split; [done|]. split; intros c Hc.
  - unfold strip in *. destruct (lstrip s) as [|d t] eqn:E; [done|].
    pose proof (lstrip_head _ _ _ E) as Hd.
    rewrite (rstrip_cons _ _ Hd) in Hc. simpl in Hc. congruence.
  - unfold strip, rstrip in Hc. rewrite last_reverse in Hc.
    destruct (lstrip (reverse (lstrip s))) as [|d t] eqn:E; [done|].
    simpl in Hc. injection Hc as <-. eapply lstrip_head, E.
Qed.

Lemma not_blank s : strip s ≠ [] ↔ forallb isspace s = false.
Proof.
  rewrite strip_nil_iff. by destruct (forallb isspace s).
Qed.

End StripShape.

(** ** Requests one at a time, and runs of them *)

Section Runs.
Context `{ST : SentenceTransformers}.

Implicit Types (p : process) (r : request) (request : EmbeddingRequest).

Lemma app_served r p : ∃ a p', app r p = (a, p') ∧ served p r a p'.
Proof.
  destruct (is_quiet r) eqn:Hq.
  - exists (app r p).1, p. split; [|by apply served_quiet].
    destruct r as [request| | |]; try reflexivity.
    simpl in Hq. by rewrite (app_blank _ _ Hq).
  - destruct r as [request| | |]; try discriminate. simpl in Hq.
    rewrite (app_text _ _ Hq). simpl.
    destruct (_model p) as [m|] eqn:Hm.
    + destruct (encode m _ _) as [res w] eqn:He.
      eexists _, _. split; [done|]. by apply served_encode.
    + destruct (SentenceTransformer _ _) as [[e|m] w] eqn:Hl.
      * eexists _, _. split; [done|]. by apply served_load_failed.
      * destruct (encode m _ _) as [res w'] eqn:He.
        eexists _, _. split; [done|]. by eapply served_load_encode.
Qed.

Lemma new_calls_refl p : new_calls p p = [].
Proof. unfold new_calls. by rewrite drop_all. Qed.

Lemma new_calls_app p p' cs : calls p' = calls p ++ cs → new_calls p p' = cs.
Proof. intros E. unfold new_calls. by rewrite E, drop_app_length. Qed.

(** The calls one request adds to the history. *)
Lemma served_calls p r a p' :
  served p r a p' → calls p' = calls p ++ new_calls p p'.
Proof.
  destruct 1; simpl.
  - by rewrite new_calls_refl, app_nil_r.
  - by erewrite new_calls_app.
  - by erewrite new_calls_app.
  - erewrite new_calls_app; [|simpl; by rewrite <- app_assoc].
    by rewrite <- app_assoc.
Qed.

(** What holds of the calls of each request, and of two histories put end
    to end when it holds of both, holds of the calls of a run. *)
Lemma serve_new_calls (Q : list call → Prop) :
  Q [] →
  (∀ cs cs', Q cs → Q cs' → Q (cs ++ cs')) →
  (∀ r p a p', served p r a p' → Q (new_calls p p')) →
  ∀ rs p,
    calls (serve rs p).2 = calls p ++ new_calls p (serve rs p).2 ∧
    Q (new_calls p (serve rs p).2).
Proof.
  intros Hnil Happ Hstep rs. induction rs as [|r rs IH]; intros p.
  - simpl. by rewrite new_calls_refl, app_nil_r.
  - rewrite serve_cons. simpl.
    destruct (app_served r p) as (a & p1 & E & Hs). rewrite E. simpl.
    destruct (IH p1) as [Hgrow HQ].
    pose proof (served_calls _ _ _ _ Hs) as Hgrow1.
    assert (calls (serve rs p1).2 =
            calls p ++ new_calls p p1 ++ new_calls p1 (serve rs p1).2) as Hall.
    { by rewrite Hgrow, Hgrow1 at 1; rewrite <- app_assoc. }
    rewrite (new_calls_app _ _ _ Hall). split; [done|].
    apply Happ; [by eapply Hstep|done].
Qed.

End Runs.

(** ** What the handlers give the model, and what they answer *)

Section Handlers.
Context `{ST : SentenceTransformers}.

Implicit Types (p : process) (r : request) (request : EmbeddingRequest).

(** The calls of one embeddings request, by the case it falls in. *)
Lemma served_post_cases request p a p' :
  served p (POST_v1_embeddings request) a p' →
  (strip (input request) = [] ∧ status a = 400 ∧ is_embedding a = false ∧
   new_calls p p' = []) ∨
  (strip (input request) ≠ [] ∧
   ((∃ m v, status a = 200 ∧ is_embedding a = true ∧
       (new_calls p p' = [Encode m (strip (input request)) (inr v)] ∨
        new_calls p p' = [Load (MODEL_NAME p) (inr m);
                          Encode m (strip (input request)) (inr v)])) ∨
    (∃ m e, status a = 500 ∧ is_embedding a = false ∧
       (new_calls p p' = [Encode m (strip (input request)) (inl e)] ∨
        new_calls p p' = [Load (MODEL_NAME p) (inr m);
                          Encode m (strip (input request)) (inl e)])) ∨
    (∃ e, status a = 500 ∧ is_embedding a = false ∧
       new_calls p p' = [Load (MODEL_NAME p) (inl e)]))).
Proof.
  inversion 1 as [r Hq|rq m res w Hb Hm He|rq e w Hb Hm Hl
                 |rq m w res w' Hb Hm Hl He]; subst.
  - left. simpl in Hq. rewrite (app_blank _ _ Hq). simpl.
    split; [by apply strip_nil_iff|]. by rewrite new_calls_refl.
  - right. split; [by apply not_blank|].
    rewrite (new_calls_app p _ [Encode m (strip (input request)) res])
      by done.
    destruct res as [e|v]; simpl; [right; left|left]; eauto 10.
  - right. split; [by apply not_blank|].
    rewrite (new_calls_app p _ [Load (MODEL_NAME p) (inl e)]) by done.
    right. right. eauto.
  - right. split; [by apply not_blank|].
    rewrite (new_calls_app p _ [Load (MODEL_NAME p) (inr m);
                                Encode m (strip (input request)) res])
      by (simpl; by rewrite <- app_assoc).
    destruct res as [e|v]; simpl; [right; left|left]; eauto 10.
Qed.

(** An embeddings request answered 200 made one [encode] call, on a text
    that is its input without a run of white space at either end: the
    text is not empty, begins and ends with a character that is no white
    space, and what lies between is the input's. *)
Theorem encoded_text_is_trimmed_input request p :
  status (app (POST_v1_embeddings request) p).1 = 200 →
  ∃ pre text post,
    input request = pre ++ text ++ post ∧
    forallb isspace pre = true ∧ forallb isspace post = true ∧
    trimmed text ∧
    encoded_texts (new_calls p (app (POST_v1_embeddings request) p).2) = [text].
Proof.
  intros Hs.
  destruct (app_served (POST_v1_embeddings request) p) as (a & p' & E & H).
  rewrite E in *. simpl in *.
  destruct (strip_split (input request)) as (pre & post & Hsplit & Hpre & Hpost).
  exists pre, (strip (input request)), post.
  destruct (served_post_cases _ _ _ _ H)
    as [(_ & H400 & _)|(Hne & [(m & v & _ & _ & Hc)|[(m & e & H500 & _)|(e & H500 & _)]])];
    try congruence.
  split; [done|]. split; [done|]. split; [done|].
  split; [by apply trimmed_strip|].
  by destruct Hc as [-> | ->].
Qed.

(** Whatever the requests of a run, from whatever state: every text an
    [encode] call of the run was given, whether the call returned or
    raised, is not empty and has no white space at either end. *)
Theorem encode_never_sees_padding rs p :
  calls (serve rs p).2 = calls p ++ new_calls p (serve rs p).2 ∧
  Forall trimmed (encoded_texts (new_calls p (serve rs p).2)).
Proof.
  apply (serve_new_calls (λ cs, Forall trimmed (encoded_texts cs))).
  - constructor.
  - intros cs cs' H H'. unfold encoded_texts. rewrite omap_app.
    by apply Forall_app.
  - intros r q a q' Hs. destruct r as [request| | |];
      try (inversion Hs; subst; rewrite new_calls_refl; constructor).
    destruct (served_post_cases _ _ _ _ Hs)
      as [(_ & _ & _ & ->)|(Hne & [(m & v & _ & _ & Hc)|[(m & e & _ & _ & Hc)|(e & _ & _ & ->)]])];
      try destruct Hc as [-> | ->]; simpl;
      repeat constructor; by apply trimmed_strip.
Qed.

(** [generate_embeddings] raises in two ways only: the [HTTPException]
    400 for an input that trims to nothing, and what the library raised
    for any other input.  It never raises [AttributeError]: [encode] is
    never looked up on [None]. *)
Theorem generate_embeddings_raises request p e :
  (generate_embeddings request p).1 = Raises e →
  (e = HTTPException 400 (lit "Input must not be empty") ∧
   strip (input request) = []) ∨
  (∃ x, e = ModelLoadError x ∧ strip (input request) ≠ []).
Proof.
  destruct (forallb isspace (input request)) eqn:Hb.
  - rewrite (generate_embeddings_blank _ _ Hb). simpl. intros [= <-].
    left. split; [done|]. by apply strip_nil_iff.
  - rewrite (generate_embeddings_text _ _ Hb). intros H. right.
    assert (strip (input request) ≠ []) as Hne by by apply not_blank.
    destruct (_model p) as [m|] eqn:Hm.
    + rewrite (get_model_loaded _ _ Hm) in H. unfold model_encode in H.
      destruct (encode m _ _) as [[x|v] w]; simpl in H; [|done].
      injection H as <-. eauto.
    + rewrite (get_model_unloaded _ Hm) in H. simpl in H.
      destruct (SentenceTransformer _ _) as [[x|m] w]; simpl in H.
      * injection H as <-. eauto.
      * unfold model_encode in H.
        destruct (encode m _ _) as [[x|v] w']; simpl in H; [|done].
        injection H as <-. eauto.
Qed.


End Handlers.

(** ** Runs of requests *)

Section Histories.
Context `{ST : SentenceTransformers}.

Implicit Types (p : process) (r : request) (request : EmbeddingRequest).

Lemma serve_served_ind (P : process → Prop) :
  (∀ r p a p', served p r a p' → P p → P p') →
  ∀ rs p, P p → P (serve rs p).2.
Proof.
  intros Hstep rs. induction rs as [|r rs IH]; intros p Hp; [done|].
  rewrite serve_cons. simpl.
  destruct (app_served r p) as (a & p1 & E & Hs). rewrite E. simpl.
  apply IH. by eapply Hstep.
Qed.

Lemma quiet_state r p : is_quiet r = true → (app r p).2 = p.
Proof.
  destruct r as [request| | |]; try reflexivity.
  intros Hb. simpl in Hb. by rewrite (app_blank _ _ Hb).
Qed.

Lemma quiet_answer r p : is_quiet r = true → is_embedding (app r p).1 = false.
Proof.
  destruct r as [request| | |]; try reflexivity.
  intros Hb. simpl in Hb. by rewrite (app_blank _ _ Hb).
Qed.

Lemma serve_quiet rs p : forallb is_quiet rs = true → (serve rs p).2 = p.
Proof.
  induction rs as [|r rs IH]; [done|]. simpl forallb.
  intros [Hr Hrs]%andb_prop. rewrite serve_cons. simpl.
  rewrite (quiet_state _ _ Hr). by apply IH.
Qed.

(** Loading is put off until it is needed (line 14): importing the module
    calls nothing in the library, and neither does any run of health
    checks, landing and favicon requests and blank embeddings requests,
    which leaves the process exactly as it started.  The first embeddings
    request with a text then calls the constructor, once, with
    [MODEL_NAME]. *)
Theorem model_loaded_on_first_use env w rs request :
  forallb is_quiet rs = true →
  strip (input request) ≠ [] →
  calls (module_init env w) = [] ∧
  (serve rs (module_init env w)).2 = module_init env w ∧
  loaded_names
    (calls (app (POST_v1_embeddings request)
              (serve rs (module_init env w)).2).2)
    = [MODEL_NAME (module_init env w)].
Proof.
  intros Hq Hne. split; [done|]. rewrite (serve_quiet _ _ Hq).
  split; [done|]. apply not_blank in Hne.
  rewrite (app_text _ _ Hne). simpl.
  destruct (SentenceTransformer _ _) as [[e|m] w1]; simpl; [done|].
  by destruct (encode m _ _) as [res w2].
Qed.

Lemma loud_answers_cons r rs a answers :
  loud_answers (r :: rs) (a :: answers) =
    if is_loud r then a :: loud_answers rs answers
    else loud_answers rs answers.
Proof. unfold loud_answers. simpl. by destruct (is_loud r). Qed.

(** Health checks, landing and favicon requests and blank embeddings
    requests do not show to the other requests of a run: taken out of the
    run, they leave the final process and the answers to the other
    requests what they were. *)
Theorem quiet_requests_invisible rs p :
  (serve (List.filter is_loud rs) p).2 = (serve rs p).2 ∧
  (serve (List.filter is_loud rs) p).1 = loud_answers rs (serve rs p).1.
Proof.
  revert p. induction rs as [|r rs IH]; intros p; [done|].
  rewrite (serve_cons r rs). cbn [fst snd].
  rewrite loud_answers_cons. cbn [List.filter].
  destruct (is_loud r) eqn:Hl.
  - rewrite serve_cons. cbn [fst snd].
    by destruct (IH (app r p).2) as [-> ->].
  - assert (is_quiet r = true) as Hq.
    { unfold is_loud in Hl. by destruct (is_quiet r). }
    rewrite (quiet_state _ _ Hq). apply IH.
Qed.

(** A process is served by one model: if every model the constructor
    returned and every model [encode] was called on is the stored one,
    this is still so after any run.  It is so at start-up. *)
Theorem one_model_serves_all rs p :
  one_model p → one_model (serve rs p).2.
Proof.
  apply serve_served_ind. clear. intros r p a p' Hs Hp.
  unfold one_model in *.
  destruct Hs as [r Hq|rq m res w Hb Hm He|rq e w Hb Hm Hl
                 |rq m w res w' Hb Hm Hl He]; simpl.
  - done.
  - apply Forall_app. split; [done|]. by apply Forall_singleton.
  - apply Forall_app. split; [done|]. by apply Forall_singleton.
  - rewrite !Forall_app, !Forall_singleton. split; [split|]; [|done..].
    eapply Forall_impl; [exact Hp|].
    intros [n [e|m0]|m0 t res0]; simpl; congruence.
Qed.




End Histories.

(** ** [int] on numerals *)

Section Numerals.
Context `{PY : Interpreter}.

#[local] Open Scope N_scope.

Lemma uint_value_pos u acc :
  uint_value (Npos acc) u = Npos (Pos.of_uint_acc u acc).
Proof.
  revert acc. induction u as [|u IH|u IH|u IH|u IH|u IH|u IH|u IH|u IH|u IH|u IH];
    intros acc; [done|..]; cbn [uint_value Pos.of_uint_acc];
    rewrite <- IH; f_equal; lia.
Qed.

Lemma uint_value_of_uint u : uint_value 0 u = N.of_uint u.
Proof.
  induction u as [|u IH|u IH|u IH|u IH|u IH|u IH|u IH|u IH|u IH|u IH];
    [done|exact IH|..]; cbn [uint_value]; simpl (10 * 0 + _);
    apply uint_value_pos.
Qed.

Lemma uint_value_to_uint n : uint_value 0 (N.to_uint n) = n.
Proof. rewrite uint_value_of_uint. apply DecimalN.Unsigned.of_to. Qed.

Lemma Py_ISSPACE_ascii c : Py_ISSPACE c = true → c < 128.
Proof.
  unfold Py_ISSPACE.
  rewrite orb_true_iff, andb_true_iff, !N.leb_le, N.eqb_eq. lia.
Qed.

Lemma is_digit_ascii c : is_digit c = true → c < 128.
Proof. unfold is_digit. rewrite andb_true_iff, !N.leb_le. lia. Qed.

Lemma to_ascii_id c : c < 128 → to_ascii c = c.
Proof. intros H. unfold to_ascii. by rewrite (proj2 (N.ltb_lt _ _) H). Qed.

Lemma to_ascii_fmap_id b : Forall (λ c, c < 128) b → to_ascii <$> b = b.
Proof.
  induction 1 as [|c b Hc _ IH]; [done|].
  rewrite fmap_cons, IH. by rewrite to_ascii_id.
Qed.

Lemma uint_chars_digits u : Forall (λ c, is_digit c = true) (uint_chars u).
Proof. induction u; simpl; by constructor. Qed.

Lemma skip_spaces_all b : forallb Py_ISSPACE b = true → skip_spaces b = [].
Proof.
  induction b as [|c b IH]; [done|]. simpl.
  intros [Hc Hb]%andb_prop. rewrite Hc. by apply IH.
Qed.

Lemma skip_spaces_app pre b :
  forallb Py_ISSPACE pre = true → skip_spaces (pre ++ b) = skip_spaces b.
Proof.
  induction pre as [|c pre IH]; [done|]. simpl.
  intros [Hc Hb]%andb_prop. rewrite Hc. by apply IH.
Qed.

(** White space is neither a digit nor an underscore. *)
Lemma space_stops c :
  Py_ISSPACE c = true → is_digit c = false ∧ (c =? 95) = false.
Proof.
  unfold Py_ISSPACE, is_digit.
  rewrite orb_true_iff, andb_true_iff, andb_false_iff, !N.leb_le, N.eqb_eq,
    !N.leb_gt, N.eqb_neq. lia.
Qed.

Lemma scan_digits_digit c prev acc k b :
  is_digit c = true →
  scan_digits prev acc k (c :: b) =
    scan_digits c (10 * acc + (c - 48)) (S k) b.
Proof. intros H. simpl. by rewrite H. Qed.

(** The scan reads a run of digits up to what cannot continue it. *)
Lemma scan_digits_uint u prev acc k rest :
  (prev =? 95) = false →
  match rest with
  | [] => True
  | c :: _ => is_digit c = false ∧ (c =? 95) = false
  end →
  scan_digits prev acc k (uint_chars u ++ rest) =
    Some (uint_value acc u, (k + length (uint_chars u))%nat, rest).
Proof.
  revert prev acc k.
  induction u as [|u IH|u IH|u IH|u IH|u IH|u IH|u IH|u IH|u IH|u IH];
    intros prev acc k Hprev Hrest;
    [|cbn [uint_chars uint_value length];
      rewrite <- app_comm_cons, scan_digits_digit, IH by done;
      replace (S k + length (uint_chars u))%nat
        with (k + S (length (uint_chars u)))%nat by lia;
      reflexivity..].
  simpl. rewrite Nat.add_0_r.
  destruct rest as [|c rest]; simpl; rewrite Hprev; [done|].
  by destruct Hrest as [-> ->].
Qed.

Lemma digit_cases c :
  is_digit c = true →
  c = 48 ∨ c = 49 ∨ c = 50 ∨ c = 51 ∨ c = 52 ∨
  c = 53 ∨ c = 54 ∨ c = 55 ∨ c = 56 ∨ c = 57.
Proof. unfold is_digit. rewrite andb_true_iff, !N.leb_le. lia. Qed.

Lemma uint_chars_head u :
  u ≠ Nil → ∃ c t, uint_chars u = c :: t ∧ is_digit c = true.
Proof. destruct u; [done|..]; intros _; simpl; eauto. Qed.

Lemma to_uint_not_Nil n : N.to_uint n ≠ Nil.
Proof.
  intros E. pose proof (DecimalN.Unsigned.of_to n) as H.
  rewrite E in H. simpl in H. subst n. discriminate.
Qed.

Lemma digit_not_sign c :
  is_digit c = true →
  (c =? 43) = false ∧ (c =? 45) = false ∧ (c =? 95) = false ∧
  Py_ISSPACE c = false.
Proof.
  unfold is_digit, Py_ISSPACE.
  rewrite andb_true_iff, orb_false_iff, andb_false_iff, !N.leb_le,
    !N.eqb_neq, !N.leb_gt. lia.
Qed.

Lemma int_skip pre s :
  forallb Py_ISSPACE pre = true → int (pre ++ s) = int s.
Proof.
  intros Hpre. unfold int.
  rewrite fmap_app, (to_ascii_fmap_id pre), skip_spaces_app; [done..|].
  apply Forall_forall. intros c Hc. apply Py_ISSPACE_ascii.
  rewrite forallb_forall in Hpre. by apply Hpre, list_elem_of_In.
Qed.

(** A run of digits, not too long, with white space after it. *)
Lemma int_digits_uint negative u post :
  u ≠ Nil →
  forallb Py_ISSPACE post = true →
  too_many_digits (length (uint_chars u)) = false →
  int_digits negative (uint_chars u ++ post) =
    Some (if negative then - Z.of_N (uint_value 0 u)
          else Z.of_N (uint_value 0 u))%Z.
Proof.
  intros Hu Hpost Hmany. unfold int_digits.
  rewrite scan_digits_uint; [|done|].
  - destruct (uint_chars_head u Hu) as (c & t & E & Hc).
    rewrite E at 1. simpl starts_with.
    destruct (digit_not_sign c Hc) as (_ & _ & -> & _).
    simpl Nat.add. rewrite Hmany, E. simpl Nat.eqb.
    by rewrite (skip_spaces_all _ Hpost).
  - destruct post as [|c post]; [done|]. simpl in Hpost.
    apply andb_prop in Hpost as [Hc _]. by apply space_stops.
Qed.

Lemma numeral_ascii u post :
  forallb Py_ISSPACE post = true →
  Forall (λ c, c < 128) (uint_chars u ++ post).
Proof.
  intros Hpost. apply Forall_app. split.
  - eapply Forall_impl; [apply uint_chars_digits|]. apply is_digit_ascii.
  - apply Forall_forall. intros c Hc. apply Py_ISSPACE_ascii.
    rewrite forallb_forall in Hpost. by apply Hpost, list_elem_of_In.
Qed.

Lemma numeral_start u post :
  u ≠ Nil →
  skip_spaces (uint_chars u ++ post) = uint_chars u ++ post ∧
  starts_with 43 (uint_chars u ++ post) = false ∧
  starts_with 45 (uint_chars u ++ post) = false.
Proof.
  intros Hu. destruct (uint_chars_head u Hu) as (c & t & -> & Hc).
  destruct (digit_not_sign c Hc) as (H43 & H45 & _ & Hsp).
  simpl. by rewrite Hsp, H43, H45.
Qed.

Lemma int_uint pre u post :
  u ≠ Nil →
  forallb Py_ISSPACE pre = true → forallb Py_ISSPACE post = true →
  too_many_digits (length (uint_chars u)) = false →
  int (pre ++ uint_chars u ++ post) = Some (Z.of_N (uint_value 0 u)) ∧
  int (pre ++ 45 :: uint_chars u ++ post) = Some (- Z.of_N (uint_value 0 u))%Z.
Proof.
  intros Hu Hpre Hpost Hmany. rewrite !(int_skip pre) by done.
  pose proof (numeral_ascii u post Hpost) as Hascii.
  destruct (numeral_start u post Hu) as (Hskip & H43 & H45).
  split; unfold int.
  - rewrite (to_ascii_fmap_id _ Hascii). cbv zeta.
    rewrite Hskip, H43, H45. by apply int_digits_uint.
  - rewrite fmap_cons, (to_ascii_fmap_id _ Hascii). simpl.
    by apply int_digits_uint.
Qed.

Lemma few_digits n : (n ≤ 640)%nat → too_many_digits n = false.
Proof.
  intros H. unfold too_many_digits.
  by rewrite (proj2 (Nat.ltb_ge 640 n) H).
Qed.

(** [int] reads back what [str] writes for an integer, white space around
    it or not. *)
Lemma int_str_of_Z pre z post :
  forallb Py_ISSPACE pre = true → forallb Py_ISSPACE post = true →
  (length (str_of_N (Z.abs_N z)) ≤ 640)%nat →
  int (pre ++ str_of_Z z ++ post) = Some z.
Proof.
  intros Hpre Hpost Hlen. apply few_digits in Hlen.
  destruct (int_uint pre (N.to_uint (Z.abs_N z)) post
              (to_uint_not_Nil _) Hpre Hpost Hlen) as [Hplus Hminus].
  rewrite uint_value_to_uint in Hplus, Hminus.
  destruct z as [|q|q]; simpl in *; [exact Hplus..|exact Hminus].
Qed.

Lemma skip_spaces_split b :
  ∃ ws, b = ws ++ skip_spaces b ∧ forallb Py_ISSPACE ws = true.
Proof.
  induction b as [|c b (ws & E & Hws)]; [by exists []|].
  simpl. destruct (Py_ISSPACE c) eqn:Hc.
  - exists (c :: ws). simpl. rewrite Hc, Hws. by rewrite <- E.
  - by exists [].
Qed.

(** What the scan reads is digits and underscores, and one digit more for
    each unit the count went up. *)
Lemma scan_digits_run b prev acc k n d rest :
  scan_digits prev acc k b = Some (n, d, rest) →
  ∃ run,
    b = run ++ rest ∧
    Forall (λ c, is_numeral_char c = true) run ∧
    (d ≠ k → Exists (λ c, is_digit c = true) run).
Proof.
  revert prev acc k. induction b as [|c b IH]; intros prev acc k; simpl.
  - destruct (prev =? 95); [done|]. intros [= <- <- <-].
    exists []. by repeat split.
  - destruct (is_digit c) eqn:Hc.
    { intros (run & -> & Hrun & _)%IH. exists (c :: run).
      split; [done|]. split; [|intros _; by left].
      constructor; [|done]. unfold is_numeral_char. by rewrite Hc. }
    destruct (c =? 95) eqn:Hu.
    { destruct (prev =? 95); [done|].
      intros (run & -> & Hrun & Hd)%IH. exists (c :: run).
      split; [done|]. split; [|intros H; right; by apply Hd].
      constructor; [|done]. unfold is_numeral_char. rewrite Hu.
      by rewrite !orb_true_r. }
    destruct (prev =? 95); [done|]. intros [= <- <- <-].
    exists []. by repeat split.
Qed.

Lemma int_digits_chars negative b z :
  int_digits negative b = Some z →
  Forall (λ c, is_numeral_char c = true) b ∧
  Exists (λ c, is_digit c = true) b.
Proof.
  unfold int_digits. destruct (starts_with 95 b); [done|].
  destruct (scan_digits 0 0 0 b) as [[[n d] rest]|] eqn:Hscan; [|done].
  destruct (too_many_digits d); [done|].
  destruct (Nat.eqb d 0) eqn:Hd; [done|]. apply Nat.eqb_neq in Hd.
  destruct (skip_spaces rest) eqn:Hrest; [|done]. intros _.
  destruct (scan_digits_run _ _ _ _ _ _ _ Hscan) as (run & -> & Hrun & Hex).
  destruct (skip_spaces_split rest) as (ws & E & Hws).
  rewrite Hrest, app_nil_r in E. subst ws.
  split; [|apply Exists_app; left; by apply Hex].
  apply Forall_app. split; [done|].
  apply Forall_forall. intros c Hc. unfold is_numeral_char.
  rewrite forallb_forall in Hws.
  rewrite (Hws c) by by apply list_elem_of_In. by rewrite !orb_true_r.
Qed.

Lemma starts_with_cons c b :
  starts_with c b = true → b = c :: tail b.
Proof.
  destruct b as [|c' b]; [done|]. simpl. by intros ->%N.eqb_eq.
Qed.

(** What [int] accepts is made of digits, signs, underscores and white
    space, and has a digit. *)
Lemma int_looks_numeral s z : int s = Some z → looks_numeral s = true.
Proof.
  unfold int. cbv zeta. intros H.
  destruct (skip_spaces_split (to_ascii <$> s)) as (ws & E & Hws).
  assert (Forall (λ c, is_numeral_char c = true) (skip_spaces (to_ascii <$> s))
          ∧ Exists (λ c, is_digit c = true) (skip_spaces (to_ascii <$> s)))
    as [Hall Hex].
  { destruct (starts_with 43 _) eqn:H43;
      [|destruct (starts_with 45 _) eqn:H45].
    - apply starts_with_cons in H43. rewrite H43.
      apply int_digits_chars in H as [Hall Hex].
      split; [by constructor|by right].
    - apply starts_with_cons in H45. rewrite H45.
      apply int_digits_chars in H as [Hall Hex].
      split; [by constructor|by right].
    - by apply int_digits_chars in H. }
  assert (Forall (λ c, is_numeral_char c = true) (to_ascii <$> s)) as Hall'.
  { rewrite E. apply Forall_app. split; [|done].
    apply Forall_forall. intros c Hc. unfold is_numeral_char.
    rewrite forallb_forall in Hws.
    rewrite (Hws c) by by apply list_elem_of_In. by rewrite !orb_true_r. }
  assert (Exists (λ c, is_digit c = true) (to_ascii <$> s)) as Hex'.
  { rewrite E. apply Exists_app. by right. }
  unfold looks_numeral. apply andb_true_intro. split.
  - apply forallb_forall. intros c Hc%list_elem_of_In.
    rewrite Forall_fmap, Forall_forall in Hall'.
    apply orb_true_iff. right. by apply Hall'.
  - apply existsb_exists. rewrite Exists_fmap, Exists_exists in Hex'.
    destruct Hex' as (c & Hc%list_elem_of_In & Hd). eauto.
Qed.

End Numerals.

(** ** Starting the server as a script *)

Section Startup.
Context `{PY : Interpreter}.

(** [EMBEDDING_PORT] set to an integer as [str] writes it (of at most 640
    digits), with or without ASCII white space around it: run as a
    script, the file calls [uvicorn.run] for ["local_embedding_server:app"]
    on host 127.0.0.1 with that integer as the port and reload off.  The
    integer is passed on as it is: negative or beyond 65535 too. *)
Theorem port_from_environment env pre z post :
  env !! lit "EMBEDDING_PORT" = Some (pre ++ str_of_Z z ++ post) →
  forallb Py_ISSPACE pre = true → forallb Py_ISSPACE post = true →
  (length (str_of_N (Z.abs_N z)) ≤ 640)%nat →
  main (lit "__main__") env =
    uvicorn_run (lit "local_embedding_server:app") (lit "127.0.0.1") z false.
Proof.
  intros Henv Hpre Hpost Hlen. unfold main, os_getenv.
  rewrite (bool_decide_eq_true_2 _ eq_refl), Henv. simpl default.
  by rewrite (int_str_of_Z _ _ _ Hpre Hpost Hlen).
Qed.

(** [EMBEDDING_PORT] set to a value with no digit in it (the empty string,
    white space), or with a character that is none of digit, sign,
    underscore and white space: run as a script, the file raises
    [ValueError] and [uvicorn.run] is not called. *)
Theorem bad_port_stops_startup env value :
  env !! lit "EMBEDDING_PORT" = Some value →
  looks_numeral value = false →
  main (lit "__main__") env = ValueError.
Proof.
  intros Henv Hbad. unfold main, os_getenv.
  rewrite (bool_decide_eq_true_2 _ eq_refl), Henv. simpl default.
  destruct (int value) as [z|] eqn:Hint; [|done].
  apply int_looks_numeral in Hint. congruence.
Qed.

(** Without [EMBEDDING_PORT] in the environment, whatever else is in it:
    run as a script, the file calls [uvicorn.run] on 127.0.0.1, port
    11435, reload off. *)
Theorem default_startup env :
  env !! lit "EMBEDDING_PORT" = None →
  main (lit "__main__") env =
    uvicorn_run (lit "local_embedding_server:app") (lit "127.0.0.1")
      11435 false.
Proof.
  intros Henv. unfold main, os_getenv.
  rewrite (bool_decide_eq_true_2 _ eq_refl), Henv. reflexivity.
Qed.

(** The two settings do not meet: the value of [EMBEDDING_MODEL] changes
    nothing to what the script block does, and the value of
    [EMBEDDING_PORT] changes nothing to [MODEL_NAME]. *)
Theorem settings_independent `{ST : SentenceTransformers}
    name env value w :
  main name (<[lit "EMBEDDING_MODEL" := value]> env) = main name env ∧
  MODEL_NAME (module_init (<[lit "EMBEDDING_PORT" := value]> env) w) =
    MODEL_NAME (module_init env w).
Proof.
  split.
  - unfold main, os_getenv. by rewrite lookup_insert_ne.
  - simpl. unfold os_getenv. by rewrite lookup_insert_ne.
Qed.

End Startup.

(** ** The further properties on the stand-ins *)

Section MoreWitnesses.
Import Doubles Fixtures.

(** [int] on the stand-in interpreter: digits of other scripts, an
    underscore between digits, a sign; and what it refuses. *)
Example int_reads :
  @int small_ucd [1640; 1632; 1640; 1632]%N = Some 8080%Z ∧
  @int small_ucd (lit "1_000") = Some 1000%Z ∧
  @int small_ucd ([160]%N ++ lit "+0080 ") = Some 80%Z ∧
  @int small_ucd (lit "-1") = Some (-1)%Z.
Proof. repeat split. Qed.

Example int_refuses :
  @int small_ucd (lit "") = None ∧
  @int small_ucd (lit "80.5") = None ∧
  @int small_ucd (lit "1__0") = None ∧
  @int small_ucd (lit "_10") = None ∧
  @int small_ucd (lit "10_") = None ∧
  @int small_ucd (lit "+ 10") = None ∧
  @int small_ucd (lit "0x10") = None.
Proof. repeat split. Qed.

Lemma encoded_text_is_trimmed_input_witness :
  status (app (POST_v1_embeddings padded_hello) counter_started).1 = 200 ∧
  ∃ pre text post,
    input padded_hello = pre ++ text ++ post ∧
    encoded_texts
      (new_calls counter_started
         (app (POST_v1_embeddings padded_hello) counter_started).2) = [text].
Proof.
  assert (status (app (POST_v1_embeddings padded_hello) counter_started).1
          = 200) as Hs by reflexivity.
  split; [exact Hs|].
  destruct (encoded_text_is_trimmed_input padded_hello counter_started Hs)
    as (pre & text & post & E & _ & _ & _ & Henc).
  by exists pre, text, post.
Defined.

Lemma generate_embeddings_raises_witness :
  (generate_embeddings hello_world unavailable_started).1 =
    Raises (@ModelLoadError unavailable (MODEL_NAME unavailable_started)) ∧
  strip (input hello_world) ≠ [].
Proof.
  assert ((generate_embeddings hello_world unavailable_started).1 =
          Raises (@ModelLoadError unavailable
                    (MODEL_NAME unavailable_started))) as Hr
    by reflexivity.
  split; [exact Hr|].
  destruct (generate_embeddings_raises hello_world unavailable_started _ Hr)
    as [[Hh _]|(x & _ & Hne)]; [discriminate|exact Hne].
Defined.

Lemma model_loaded_on_first_use_witness :
  forallb is_quiet [GET_healthz; POST_v1_embeddings blank; GET_favicon_ico]
    = true ∧
  strip (input hello_world) ≠ [] ∧
  (serve [GET_healthz; POST_v1_embeddings blank; GET_favicon_ico]
     flaky_started).2 = flaky_started.
Proof.
  assert (strip (input hello_world) ≠ []) as Hne by discriminate.
  split; [reflexivity|]. split; [exact Hne|].
  exact (proj1 (proj2 (@model_loaded_on_first_use flaky ∅ O
           [GET_healthz; POST_v1_embeddings blank; GET_favicon_ico]
           hello_world eq_refl Hne))).
Defined.

Lemma one_model_serves_all_witness :
  one_model counter_started ∧
  one_model
    (serve [POST_v1_embeddings hello_world; GET_root;
            POST_v1_embeddings padded_hello] counter_started).2.
Proof.
  assert (one_model counter_started) as H0 by constructor.
  split; [exact H0|]. by apply one_model_serves_all.
Defined.

Lemma port_from_environment_witness :
  port_8080 !! lit "EMBEDDING_PORT"
    = Some ([32]%N ++ str_of_Z 8080 ++ [10]%N) ∧
  @main small_ucd (lit "__main__") port_8080 =
    uvicorn_run (lit "local_embedding_server:app") (lit "127.0.0.1")
      8080 false.
Proof.
  assert (port_8080 !! lit "EMBEDDING_PORT"
          = Some ([32]%N ++ str_of_Z 8080 ++ [10]%N)) as Henv
    by apply lookup_singleton_eq.
  split; [exact Henv|].
  apply (@port_from_environment small_ucd port_8080 [32]%N 8080 [10]%N Henv);
    [reflexivity|reflexivity|simpl; lia].
Defined.

Lemma bad_port_stops_startup_witness :
  port_http !! lit "EMBEDDING_PORT" = Some (lit "http") ∧
  @looks_numeral small_ucd (lit "http") = false ∧
  @main small_ucd (lit "__main__") port_http = ValueError ∧
  @main small_ucd (lit "__main__") port_blank = ValueError.
Proof.
  assert (port_http !! lit "EMBEDDING_PORT" = Some (lit "http")) as Henv
    by apply lookup_singleton_eq.
  assert (port_blank !! lit "EMBEDDING_PORT" = Some (lit "")) as Henv'
    by apply lookup_singleton_eq.
  split; [exact Henv|]. split; [reflexivity|]. split.
  - exact (@bad_port_stops_startup small_ucd _ _ Henv eq_refl).
  - exact (@bad_port_stops_startup small_ucd _ _ Henv' eq_refl).
Defined.

Lemma default_startup_witness :
  configured !! lit "EMBEDDING_PORT" = None ∧
  @main small_ucd (lit "__main__") configured =
    uvicorn_run (lit "local_embedding_server:app") (lit "127.0.0.1")
      11435 false.
Proof.
  assert (configured !! lit "EMBEDDING_PORT" = None) as Henv.
  { apply lookup_singleton_ne. discriminate. }
  split; [exact Henv|]. exact (@default_startup small_ucd _ Henv).
Defined.

End MoreWitnesses.
